(** * EWFinalProject: a course catalog kept in a hash table

    Shallow embedding of [EWFinalProject.cpp]: the loader
    [loadCoursesToHashTable], the validator [validateHashTable], the two
    queries [searchCourseInHashTable] and [PrintAllCourses], and the menu
    dispatch of [main].

    Conventions of the embedding
    - a [std::string] is a [string] (a sequence of 8-bit characters);
    - an input stream ([std::ifstream], [std::stringstream]) is the string
      of characters not read yet;
    - [std::unordered_map<std::string, Course>] is a [gmap string Course];
      the order in which a range-for visits its entries is not fixed by the
      container, so the functions that iterate take the enumeration as a
      parameter [iterate], constrained only to list every entry once;
    - text written to [std::cout] and [std::cerr] is returned, as the two
      fields of an [Output]. *)

From Equations.Prop Require Import Equations Logic.
From Stdlib Require Import Ascii String List Sorted Lia.
From stdpp Require Import base option list strings gmap sorting.


(** ** Characters and text *)

Definition comma : ascii := ","%char.
Definition newline : ascii := ascii_of_nat 10.
(** [std::endl] writes a line feed (and flushes). *)
Definition endl : string := String newline "".

(** ** Input streams and [std::getline] *)

Definition istream := string.

(** The characters [std::getline] stores, and the stream it leaves: it reads
    up to the delimiter, which it extracts and drops, or up to the end. *)
Fixpoint getline_extract (delim : ascii) (strm : istream) : string * istream :=
  match strm with
  | "" => ("", "")
  | String c rest =>
      if Ascii.eqb c delim then ("", rest)
      else let '(tok, strm') := getline_extract delim rest in (String c tok, strm')
  end.

(** [std::getline(strm, str, delim)] converted to [bool]: it fails, and the
    loop it guards ends, exactly when no character could be extracted. *)
Definition getline (delim : ascii) (strm : istream) : option (string * istream) :=
  match strm with
  | "" => None
  | String _ _ => Some (getline_extract delim strm)
  end.

(** [getlines delim s] lists what successive calls of [std::getline] store
    until one fails; it is structural in [s] and is what the two loops
    of the loader are compared with. *)
Fixpoint getlines (delim : ascii) (s : string) : list string :=
  match s with
  | "" => []
  | String c rest =>
      if Ascii.eqb c delim then "" :: getlines delim rest
      else match getlines delim rest with
           | [] => [String c ""]
           | tok :: toks => String c tok :: toks
           end
  end.

Lemma getline_extract_shorter delim strm :
  (String.length (getline_extract delim strm).2 ≤ String.length strm)%nat.
Proof.
  induction strm as [|c rest IH]; simpl; [lia|].
  destruct (Ascii.eqb c delim); simpl; [lia|].
  destruct (getline_extract delim rest); simpl in *; lia.
Qed.

Lemma getline_shorter delim strm tok strm' :
  getline delim strm = Some (tok, strm') → String.length strm' < String.length strm.
Proof.
  destruct strm as [|c rest]; [discriminate|]. unfold getline.
  intros [= H]. simpl in H.
  destruct (Ascii.eqb c delim).
  - injection H as _ <-. simpl. lia.
  - pose proof (getline_extract_shorter delim rest) as Hle.
    destruct (getline_extract delim rest) as [t r]. injection H as _ <-.
    simpl in *. lia.
Qed.

(** ** The data model *)

Record Course := mkCourse {
  number : string;
  title : string;
  prerequisites : list string
}.

(** A default-constructed [Course]. *)
Definition Course_default : Course := mkCourse "" "" [].
#[global] Instance Course_inhabited : Inhabited Course := populate Course_default.

Abbreviation HashTable := (gmap string Course).

Record Output := mkOutput { cout : string; cerr : string }.

(** ** loadCoursesToHashTable *)

(** Lines 55-57: [while (std::getline(ss, token, ',')) tokens.push_back(token);] *)
Equations? read_tokens (ss : istream) (tokens : list string) : list string
  by wf (String.length ss) lt :=
read_tokens ss tokens with inspect (getline comma ss) := {
  | exist _ None _ => tokens
  | exist _ (Some (token, ss')) H => read_tokens ss' (tokens ++ [token]) }.
Proof. eapply getline_shorter, H. Qed.

Definition tokenize (lineData : string) : list string := read_tokens lineData [].

(** What opening a path gives: the contents of the file, or [None] when
    [file.is_open()] is false. *)
Definition FileSystem := string → option string.

Definition err_open : string := "Error: Unable to open file." +:+ endl.
Definition err_params : string := "Error: Line has less than 2 parameters." +:+ endl.

(** Lines 51-75, the body of the line loop, on the table and the text
    written to [std::cerr] so far. [tokens[0]], [tokens[1]] and the range
    from [tokens.begin() + 2] are read only past the size check. *)
Definition load_line (lineData : string) (st : HashTable * string)
  : HashTable * string :=
  let '(coursesHashTable, err) := st in
  match tokenize lineData with
  | courseNumber :: courseTitle :: prerequisites =>
      let course := mkCourse courseNumber courseTitle prerequisites in
      (<[courseNumber := course]> coursesHashTable, err)
  | _ => (coursesHashTable, err +:+ err_params)
  end.

(** Lines 50-76: [while (std::getline(file, lineData)) { ... }] *)
Equations? read_lines (file : istream) (st : HashTable * string)
  : HashTable * string by wf (String.length file) lt :=
read_lines file st with inspect (getline newline file) := {
  | exist _ None _ => st
  | exist _ (Some (lineData, file')) H => read_lines file' (load_line lineData st) }.
Proof. eapply getline_shorter, H. Qed.

Definition loadCoursesToHashTable (fs : FileSystem) (filePath : string)
  : HashTable * Output :=
  match fs filePath with
  | None => (∅, mkOutput "" err_open)
  | Some file =>
      let '(coursesHashTable, err) := read_lines file (∅, "") in
      (coursesHashTable, mkOutput "" err)
  end.

(** ** Iteration over the table

    The validator and the listing run a range-for over the table; [iterate]
    is the sequence of entries such a loop visits. *)
Section Iteration.
Variable iterate : HashTable → list (string * Course).

(** *** validateHashTable *)

Definition err_prerequisite (prerequisite : string) : string :=
  "Error: Prerequisite " +:+ prerequisite +:+ " does not exist as a course." +:+ endl.

(** Lines 92-96: the set of course numbers. *)
Definition collect_courseNumbers (entries : list (string * Course)) : gset string :=
  foldl (λ courseNumbers entry, {[ entry.1 ]} ∪ courseNumbers) ∅ entries.

(** Lines 101-106, the loop over one course's prerequisites: [Some p]
    when it leaves the function at [p], [None] when it runs to its end. *)
Fixpoint check_prerequisites (courseNumbers : gset string)
    (prereqs : list string) : option string :=
  match prereqs with
  | [] => None
  | prerequisite :: rest =>
      if decide (prerequisite ∈ courseNumbers)
      then check_prerequisites courseNumbers rest
      else Some prerequisite
  end.

(** Lines 99-109: the loop over the courses, then [return true]. *)
Fixpoint check_courses (courseNumbers : gset string)
    (entries : list (string * Course)) : bool * string :=
  match entries with
  | [] => (true, "")
  | entry :: rest =>
      match check_prerequisites courseNumbers (prerequisites entry.2) with
      | Some prerequisite => (false, err_prerequisite prerequisite)
      | None => check_courses courseNumbers rest
      end
  end.

Definition validateHashTable (coursesHashTable : HashTable) : bool * Output :=
  let courseNumbers := collect_courseNumbers (iterate coursesHashTable) in
  let '(ok, err) := check_courses courseNumbers (iterate coursesHashTable) in
  (ok, mkOutput "" err).

(** *** PrintAllCourses *)

(** [std::sort] on strings: ascending for [operator<], which compares
    character by character as unsigned bytes. *)
Definition std_sort (v : list string) : list string := merge_sort String.le v.

(** [operator[]] of the map: the mapped value, default-inserted when the
    key is absent. *)
Definition subscript (m : HashTable) (key : string) : Course * HashTable :=
  match m !! key with
  | Some course => (course, m)
  | None => (Course_default, <[key := Course_default]> m)
  end.

Definition print_header : string :=
  "Courses in the Computer Science department:" +:+ endl.

(** Lines 158-161, on the by-value copy of the table and the text written. *)
Definition print_course (st : HashTable * string) (courseNumber : string)
  : HashTable * string :=
  let '(coursesHashTable, out) := st in
  let '(course, coursesHashTable') := subscript coursesHashTable courseNumber in
  (coursesHashTable', out +:+ number course +:+ ": " +:+ title course +:+ endl).

Definition PrintAllCourses (coursesHashTable : HashTable) : Output :=
  let courseNumbers := std_sort (map fst (iterate coursesHashTable)) in
  let '(_, out) := foldl print_course (coursesHashTable, print_header) courseNumbers in
  mkOutput out "".
End Iteration.

(** ** searchCourseInHashTable *)

(** Lines 130-132: every prerequisite is followed by a space. *)
Fixpoint print_prerequisites (prereqs : list string) : string :=
  match prereqs with
  | [] => ""
  | prerequisite :: rest => prerequisite +:+ " " +:+ print_prerequisites rest
  end.

Definition err_not_found (courseNumber : string) : string :=
  "Error: Course " +:+ courseNumber +:+ " not found." +:+ endl.

Definition searchCourseInHashTable (coursesHashTable : HashTable)
    (courseNumber : string) : Output :=
  match coursesHashTable !! courseNumber with
  | Some course =>
      mkOutput
        ("Course Number: " +:+ number course +:+ endl +:+
         "Course Title: " +:+ title course +:+ endl +:+
         "Prerequisites: " +:+
         match prerequisites course with
         | [] => "None" +:+ endl
         | _ :: _ => print_prerequisites (prerequisites course) +:+ endl
         end)
        ""
  | None => mkOutput "" (err_not_found courseNumber)
  end.

(** ** The menu of [main]

    One turn of the loop, from the choice [std::cin >> userChoice] read
    (0 when the extraction failed) and the text the chosen branch reads
    next: the line of the path for choice 1, the word for choice 3. The
    session holds the three variables of [main]; [None] is [return 0]. *)
Record Session := mkSession {
  filePath : string;
  courseNumber : string;
  coursesHashTable : HashTable
}.

Definition Output_app (o1 o2 : Output) : Output :=
  mkOutput (cout o1 +:+ cout o2) (cerr o1 +:+ cerr o2).

Definition menu_text : string :=
  "Menu:" +:+ endl +:+ "1. Load file" +:+ endl +:+ "2. Print List" +:+ endl +:+
  "3. Search for Course" +:+ endl +:+ "9. Exit" +:+ endl +:+ "Enter your choice: ".

Definition main_init (fs : FileSystem) : Session * Output :=
  let '(tbl, o) := loadCoursesToHashTable fs "" in (mkSession "" "" tbl, o).

Definition main_turn (iterate : HashTable → list (string * Course))
    (fs : FileSystem) (userChoice : Z) (input : string) (s : Session)
  : option Session * Output :=
  let menu := mkOutput menu_text "" in
  if decide (userChoice = 1%Z) then
    let '(tbl, o) := loadCoursesToHashTable fs input in
    (Some (mkSession input (courseNumber s) tbl),
     Output_app menu (Output_app (mkOutput ("Enter filepath to load: " +:+ input) "") o))
  else if decide (userChoice = 2%Z) then
    (Some s, Output_app menu (PrintAllCourses iterate (coursesHashTable s)))
  else if decide (userChoice = 3%Z) then
    (Some (mkSession (filePath s) input (coursesHashTable s)),
     Output_app menu
       (Output_app (mkOutput "Enter course number to search: " "")
                   (searchCourseInHashTable (coursesHashTable s) input)))
  else if decide (userChoice = 9%Z) then
    (None, Output_app menu (mkOutput ("Goodbye!" +:+ endl) ""))
  else
    (Some s, Output_app menu (mkOutput ("Invalid choice. Please try again." +:+ endl) "")).

(** ** Vocabulary of the statements *)

(** The lines the loader reads from a file, in order. *)
Definition file_lines (file : string) : list string := getlines newline file.

(** The record a line stands for, when the line has at least two tokens. *)
Definition course_of_line (lineData : string) : option Course :=
  match tokenize lineData with
  | courseNumber :: courseTitle :: prerequisites =>
      Some (mkCourse courseNumber courseTitle prerequisites)
  | _ => None
  end.

(** The lines of a file that have at least two tokens, and their identifiers. *)
Definition accepted_lines (file : string) : list string :=
  filter (λ lineData, 2 ≤ length (tokenize lineData)) (file_lines file).

Definition line_identifier (lineData : string) : string :=
  default "" (head (tokenize lineData)).

(** The diagnostics a sequence of lines produces: one per line with fewer
    than two tokens, nothing for any other line. *)
Fixpoint line_diagnostics (lines : list string) : string :=
  match lines with
  | [] => ""
  | lineData :: rest =>
      (if decide (length (tokenize lineData) < 2) then err_params else "")
      +:+ line_diagnostics rest
  end.

(** The comma-separated fields of a line, as the words of the
    specification have them: the pieces between the delimiters, so that
    [n] delimiters separate [n + 1] fields, empty ones included. *)
Fixpoint fields (delim : ascii) (s : string) : list string :=
  match s with
  | "" => [""]
  | String c rest =>
      if Ascii.eqb c delim then "" :: fields delim rest
      else match fields delim rest with
           | [] => [String c ""]
           | field :: rest_fields => String c field :: rest_fields
           end
  end.

(** A sequence of fields without its last one, when that one is empty. *)
Fixpoint drop_last_empty (l : list string) : list string :=
  match l with
  | [] => []
  | [field] => if decide (field = "") then [] else [field]
  | field :: rest => field :: drop_last_empty rest
  end.

(** A token is trimmed, in the words of the specification, when it neither
    starts nor ends with white space. *)
Definition last_char (s : string) : option ascii := last (list_ascii_of_string s).
Definition first_char (s : string) : option ascii := head (list_ascii_of_string s).
Definition is_trimmed (token : string) : bool :=
  match first_char token, last_char token with
  | Some c1, Some c2 => negb (Ascii.is_space c1) && negb (Ascii.is_space c2)
  | _, _ => true
  end.

(** A token holds no delimiter. *)
Definition comma_free (token : string) : Prop :=
  comma ∉ list_ascii_of_string token.

(** The text of a found course, as the specification words it: the
    prerequisites joined by single spaces, or [None]. *)
Definition search_text_joined (course : Course) : string :=
  "Course Number: " +:+ number course +:+ endl +:+
  "Course Title: " +:+ title course +:+ endl +:+
  "Prerequisites: " +:+
  match prerequisites course with
  | [] => "None"
  | prereqs => String.concat " " prereqs
  end +:+ endl.

(** The first prerequisite, in the order of the entries, that is no key. *)
Definition first_missing (m : HashTable) (entries : list (string * Course))
  : option string :=
  head (filter (λ prerequisite, prerequisite ∉ dom m)
               (entries ≫= λ entry, prerequisites entry.2)).

(** A line of the listing, and the text of a sequence of lines. *)
Definition listing_line (entry : string * Course) : string :=
  entry.1 +:+ ": " +:+ title entry.2 +:+ endl.

Definition text_of (lines : list string) : string := foldr String.append "" lines.

(** [operator<] on strings. *)
Definition string_lt (s1 s2 : string) : Prop := String.compare s1 s2 = Lt.

Definition table_catalog : HashTable :=
  {[ "CS301" := mkCourse "CS301" "Algorithms" ["CS201"; "CS101"];
     "CS101" := mkCourse "CS101" "Intro to CS" [];
     "CS201" := mkCourse "CS201" "Data Structures" ["CS101"] ]}.

(** The table of the example of the specification. *)
Definition table_example : HashTable :=
  {[ "CS101" := mkCourse "CS101" "Intro to CS" [];
     "CS201" := mkCourse "CS201" "Data Structures" ["CS101"];
     "CS301" := mkCourse "CS301" "Algorithms" ["CS201"; "CS999"] ]}.

(** A file system with one file. *)
Definition fs_single (path file : string) : FileSystem :=
  λ p, if decide (p = path) then Some file else None.

(** Sample files. *)
Definition file_catalog : string :=
  "CS101,Intro to CS" +:+ endl +:+
  "CS201,Data Structures,CS101" +:+ endl +:+
  "CS301,Algorithms,CS201,CS999" +:+ endl.

Definition file_duplicate : string :=
  "A,x" +:+ endl +:+ "A,y,B" +:+ endl +:+ "B,z" +:+ endl +:+ "A" +:+ endl.

(** Several turns of the menu loop in a row: the session after them, or
    [None] once a turn has returned, and all the text written. *)
Fixpoint main_turns (iterate : HashTable → list (string * Course))
    (fs : FileSystem) (turns : list (Z * string)) (s : Session)
  : option Session * Output :=
  match turns with
  | [] => (Some s, mkOutput "" "")
  | (userChoice, input) :: rest =>
      match main_turn iterate fs userChoice input s with
      | (Some s', o) =>
          let '(r, o') := main_turns iterate fs rest s' in (r, Output_app o o')
      | (None, o) => (None, o)
      end
  end.


(** A string holds no line feed. *)
Definition newline_free (s : string) : Prop :=
  newline ∉ list_ascii_of_string s.

(** The line that writes a sequence of tokens with commas between them. *)
Definition join_tokens (tokens : list string) : string := String.concat "," tokens.

(** The table holds every course under its own number. *)
Definition keyed_by_number (m : HashTable) : Prop :=
  ∀ key course, m !! key = Some course → number course = key.

(** What line 75 does to the table, for the course of a line. *)
Definition insert_course (m : HashTable) (course : Course) : HashTable :=
  <[number course := course]> m.


(** ** The loops and the sequences they read *)

Lemma getlines_getline delim s tok s' :
  getline delim s = Some (tok, s') → getlines delim s = tok :: getlines delim s'.
Proof.
  revert tok s'. induction s as [|c rest IH]; intros tok s'; [discriminate|].
  unfold getline. intros [= H]. simpl in *.
  destruct (Ascii.eqb c delim) eqn:Hc.
  - by injection H as <- <-.
  - destruct rest as [|c' rest'].
    + simpl in H. by injection H as <- <-.
    + destruct (getline_extract delim (String c' rest')) as [t r] eqn:Hx.
      injection H as <- <-.
      by rewrite (IH t r) by (unfold getline; by rewrite Hx).
Qed.

Lemma read_tokens_getlines ss tokens :
  read_tokens ss tokens = tokens ++ getlines comma ss.
Proof.
  funelim (read_tokens ss tokens); clear Heqcall.
  - match goal with IH : read_tokens _ _ = _ |- _ => rewrite IH end.
    rewrite (getlines_getline _ _ _ _ H). by rewrite <- app_assoc.
  - destruct ss; [|discriminate]. by rewrite app_nil_r.
Qed.

Lemma tokenize_getlines lineData : tokenize lineData = getlines comma lineData.
Proof. apply read_tokens_getlines. Qed.

Lemma read_lines_fold file st :
  read_lines file st = fold_left (λ st lineData, load_line lineData st) (getlines newline file) st.
Proof.
  funelim (read_lines file st); clear Heqcall.
  - match goal with IH : read_lines _ _ = _ |- _ => rewrite IH end.
    by rewrite (getlines_getline _ _ _ _ H).
  - by destruct file.
Qed.

(** ** Text *)

Lemma string_app_cons c (s1 s2 : string) : String c s1 +:+ s2 = String c (s1 +:+ s2).
Proof. reflexivity. Qed.

Lemma string_app_nil_r (s : string) : s +:+ "" = s.
Proof. induction s as [|c s IH]; [done|]. by rewrite string_app_cons, IH. Qed.

Lemma string_app_assoc (s1 s2 s3 : string) : (s1 +:+ s2) +:+ s3 = s1 +:+ s2 +:+ s3.
Proof. induction s1 as [|c s1 IH]; [done|]. by rewrite !string_app_cons, IH. Qed.

(** ** The loader, line by line *)

Lemma load_line_course lineData m err :
  load_line lineData (m, err) =
  match course_of_line lineData with
  | Some course => (insert_course m course, err)
  | None => (m, err +:+ err_params)
  end.
Proof.
  unfold load_line, course_of_line.
  by destruct (tokenize lineData) as [|? [|? ?]].
Qed.

Lemma course_of_line_None lineData :
  course_of_line lineData = None ↔ length (tokenize lineData) < 2.
Proof.
  unfold course_of_line.
  destruct (tokenize lineData) as [|? [|? ?]]; simpl; split; try done; lia.
Qed.

Lemma course_of_line_Some lineData course :
  course_of_line lineData = Some course ↔
  tokenize lineData = number course :: title course :: prerequisites course.
Proof.
  unfold course_of_line. destruct course as [n t ps]; simpl.
  destruct (tokenize lineData) as [|? [|? ?]]; split; try done; congruence.
Qed.

Lemma load_lines_spec lines m err :
  fold_left (λ st lineData, load_line lineData st) lines (m, err) =
  (foldl insert_course m (omap course_of_line lines),
   err +:+ line_diagnostics lines).
Proof.
  revert m err. induction lines as [|l lines IH]; intros m err;
    cbn [fold_left omap list_omap line_diagnostics].
  - by rewrite string_app_nil_r.
  - rewrite load_line_course.
    destruct (course_of_line l) as [c|] eqn:Hc.
    + rewrite IH. rewrite decide_False; [done|].
      intros Hlt%course_of_line_None. congruence.
    + rewrite IH, string_app_assoc. apply course_of_line_None in Hc.
      by rewrite decide_True.
Qed.

(** The loader, in one equation: a failed open gives the empty table and
    one diagnostic; otherwise the courses of the lines are inserted in
    order, and each line with fewer than two tokens gives a diagnostic. *)
Lemma load_spec fs filePath :
  loadCoursesToHashTable fs filePath =
  match fs filePath with
  | None => (∅, mkOutput "" err_open)
  | Some file =>
      (foldl insert_course ∅ (omap course_of_line (file_lines file)),
       mkOutput "" (line_diagnostics (file_lines file)))
  end.
Proof.
  unfold loadCoursesToHashTable. destruct (fs filePath) as [file|]; [|done].
  by rewrite read_lines_fold, load_lines_spec.
Qed.

Lemma foldl_insert_course_snoc m courses course :
  foldl insert_course m (courses ++ [course]) =
  insert_course (foldl insert_course m courses) course.
Proof. by rewrite foldl_app. Qed.

Lemma foldl_insert_course_lookup_ne m courses key :
  Forall (λ course, number course ≠ key) courses →
  foldl insert_course m courses !! key = m !! key.
Proof.
  revert m. induction courses as [|c courses IH]; intros m Hall; [done|].
  inversion_clear Hall as [|?? Hc Hrest]. simpl. rewrite IH by done.
  unfold insert_course. by rewrite lookup_insert_ne.
Qed.

Lemma foldl_insert_course_dom m courses :
  dom (foldl insert_course m courses) = dom m ∪ list_to_set (number <$> courses).
Proof.
  revert m. induction courses as [|c courses IH]; intros m; simpl.
  - by rewrite union_empty_r_L.
  - rewrite IH. unfold insert_course. rewrite dom_insert_L.
    by rewrite (comm_L (∪) {[ number c ]}), <- (assoc_L (∪)).
Qed.



Lemma omap_course_numbers (lines : list string) :
  number <$> omap course_of_line lines =
  line_identifier <$> filter (λ lineData, 2 ≤ length (tokenize lineData)) lines.
Proof.
  induction lines as [|l lines IH]; [done|].
  cbn [omap list_omap]. rewrite filter_cons.
  destruct (course_of_line l) as [c|] eqn:Hc.
  - apply course_of_line_Some in Hc.
    rewrite decide_True by (rewrite Hc; simpl; lia).
    rewrite !fmap_cons, IH. f_equal. unfold line_identifier. by rewrite Hc.
  - apply course_of_line_None in Hc. by rewrite decide_False by lia.
Qed.

Lemma size_list_to_set_remove_dups (l : list string) :
  size (list_to_set (C:=gset string) l) = length (remove_dups l).
Proof.
  rewrite <- (size_list_to_set (C:=gset string) (remove_dups l))
    by apply NoDup_remove_dups.
  f_equal. apply set_eq. intros x.
  by rewrite !elem_of_list_to_set, elem_of_remove_dups.
Qed.

Lemma remove_dups_NoDup (l : list string) : NoDup l → remove_dups l = l.
Proof.
  induction 1 as [|x l Hx _ IH]; [done|]. simpl.
  destruct (decide_rel elem_of x l); [done|by rewrite IH].
Qed.

Lemma getlines_head_empty delim s tok toks :
  getlines delim s = tok :: toks → (tok = "" ↔ ∃ rest, s = String delim rest).
Proof.
  destruct s as [|c rest]; [done|]. simpl.
  destruct (Ascii.eqb c delim) eqn:Hc.
  - apply Ascii.eqb_eq in Hc as ->. intros [= <- _]. split; [eauto|done].
  - apply Ascii.eqb_neq in Hc.
    destruct (getlines delim rest); intros [= <- _];
      (split; [done|intros [? [= ? _]]; done]).
Qed.

(** ** The loader: claims *)

(** C5. When the source cannot be opened, the loader writes one diagnostic
    and returns the empty table, as a value of its ordinary result type;
    the table is the one an empty file gives. *)
Theorem load_unopened_source fs filePath :
  fs filePath = None →
  loadCoursesToHashTable fs filePath = (∅, mkOutput "" err_open) ∧
  ∀ fs' filePath', fs' filePath' = Some "" →
    (loadCoursesToHashTable fs' filePath').1 = (loadCoursesToHashTable fs filePath).1.
Proof.
  intros Hopen. rewrite !load_spec, Hopen. split; [done|].
  intros fs' filePath' Hempty. by rewrite load_spec, Hempty.
Qed.

Lemma load_unopened_source_witness :
  loadCoursesToHashTable (fs_single "courses.csv" file_catalog) "missing.csv"
    = (∅, mkOutput "" err_open) ∧
  ∀ fs' filePath', fs' filePath' = Some "" →
    (loadCoursesToHashTable fs' filePath').1 =
    (loadCoursesToHashTable (fs_single "courses.csv" file_catalog) "missing.csv").1.
Proof.
  apply (load_unopened_source (fs_single "courses.csv" file_catalog) "missing.csv").
  reflexivity.
Defined.

(** C9. The loader's result is a function of what the path opens: two
    loads of identical input return the same table (the same keys, the
    same records) and the same diagnostics, and in the menu the second of
    two such loads replaces the session's table by an equal one, whatever
    the session held before the first. *)
Theorem load_twice_identical fs1 fs2 filePath1 filePath2 iterate s :
  fs1 filePath1 = fs2 filePath2 →
  loadCoursesToHashTable fs1 filePath1 = loadCoursesToHashTable fs2 filePath2 ∧
  ∃ s1 s2,
    (main_turn iterate fs1 1 filePath1 s).1 = Some s1 ∧
    (main_turn iterate fs2 1 filePath2 s1).1 = Some s2 ∧
    coursesHashTable s1 = (loadCoursesToHashTable fs1 filePath1).1 ∧
    coursesHashTable s2 = coursesHashTable s1 ∧
    dom (coursesHashTable s2) = dom (coursesHashTable s1).
Proof.
  intros Hsame.
  assert (loadCoursesToHashTable fs1 filePath1 = loadCoursesToHashTable fs2 filePath2)
    as Hload by by rewrite !load_spec, Hsame.
  split; [done|]. unfold main_turn. rewrite !decide_True by done.
  rewrite <- Hload. destruct (loadCoursesToHashTable fs1 filePath1) as [tbl o].
  by exists (mkSession filePath1 (courseNumber s) tbl),
            (mkSession filePath2 (courseNumber s) tbl).
Qed.

Lemma load_twice_identical_witness :
  loadCoursesToHashTable (fs_single "a.csv" file_catalog) "a.csv"
    = loadCoursesToHashTable (fs_single "b.csv" file_catalog) "b.csv" ∧
  ∃ s1 s2,
    (main_turn map_to_list (fs_single "a.csv" file_catalog) 1 "a.csv"
       (mkSession "" "" ∅)).1 = Some s1 ∧
    (main_turn map_to_list (fs_single "b.csv" file_catalog) 1 "b.csv" s1).1 = Some s2 ∧
    coursesHashTable s1
      = (loadCoursesToHashTable (fs_single "a.csv" file_catalog) "a.csv").1 ∧
    coursesHashTable s2 = coursesHashTable s1 ∧
    dom (coursesHashTable s2) = dom (coursesHashTable s1).
Proof.
  apply (load_twice_identical (fs_single "a.csv" file_catalog)
           (fs_single "b.csv" file_catalog) "a.csv" "b.csv" map_to_list
           (mkSession "" "" ∅)).
  reflexivity.
Defined.

(** C2 as amended. The number of records in the table the loader returns is
    the number of distinct identifiers among the lines with at least two
    tokens. *)
Theorem load_size_distinct_identifiers fs filePath file :
  fs filePath = Some file →
  size (loadCoursesToHashTable fs filePath).1 =
  length (remove_dups (line_identifier <$> accepted_lines file)).
Proof.
  intros Hopen. rewrite load_spec, Hopen. simpl.
  rewrite <- size_dom, foldl_insert_course_dom, dom_empty_L, union_empty_l_L.
  rewrite omap_course_numbers. apply size_list_to_set_remove_dups.
Qed.

Lemma load_size_distinct_identifiers_witness :
  size (loadCoursesToHashTable (fs_single "courses.csv" file_duplicate) "courses.csv").1 =
  length (remove_dups (line_identifier <$> accepted_lines file_duplicate)).
Proof.
  apply (load_size_distinct_identifiers
           (fs_single "courses.csv" file_duplicate) "courses.csv" file_duplicate).
  reflexivity.
Defined.

(** C2 as stated fails: two lines with one identifier are two lines with
    two fields each (counted as tokens or as fields), and one record. *)
Lemma load_size_counterexample :
  size (loadCoursesToHashTable (fs_single "f" ("A,x" +:+ endl +:+ "A,y")) "f").1
  ≠ length (accepted_lines ("A,x" +:+ endl +:+ "A,y")) ∧
  size (loadCoursesToHashTable (fs_single "f" ("A,x" +:+ endl +:+ "A,y")) "f").1
  ≠ length (filter (λ lineData, 2 ≤ length (fields comma lineData))
                   (file_lines ("A,x" +:+ endl +:+ "A,y"))).
Proof. rewrite load_spec. split; vm_compute; lia. Qed.

(** C3. When a file has several lines with one identifier, the record kept
    under it is the one of the last such line with at least two tokens: its
    title and its prerequisites, in order. The lines before it may hold the
    identifier any number of times. The only diagnostics are those of the
    lines with fewer than two tokens: a repeated identifier writes nothing. *)
Theorem load_last_write_wins fs filePath file before lineData after
    courseNo courseTitle prereqs :
  fs filePath = Some file →
  file_lines file = before ++ lineData :: after →
  tokenize lineData = courseNo :: courseTitle :: prereqs →
  Forall (λ later, 2 ≤ length (tokenize later) → line_identifier later ≠ courseNo) after →
  (loadCoursesToHashTable fs filePath).1 !! courseNo
    = Some (mkCourse courseNo courseTitle prereqs) ∧
  (loadCoursesToHashTable fs filePath).2
    = mkOutput "" (line_diagnostics (file_lines file)).
Proof.
  intros Hopen Hlines Htok Hafter. rewrite load_spec, Hopen. split; [|done].
  cbn [fst]. rewrite Hlines, omap_app. cbn [omap list_omap].
  assert (course_of_line lineData = Some (mkCourse courseNo courseTitle prereqs)) as ->
    by by apply course_of_line_Some.
  rewrite foldl_app. cbn [foldl]. rewrite foldl_insert_course_lookup_ne.
  - unfold insert_course. cbn [number]. by rewrite lookup_insert_eq.
  - apply Forall_forall. intros c [later [Hin Hc]]%list_elem_of_omap.
    rewrite Forall_forall in Hafter. specialize (Hafter later Hin).
    apply course_of_line_Some in Hc. intros Heq. apply Hafter.
    + rewrite Hc. simpl. lia.
    + unfold line_identifier. by rewrite Hc.
Qed.

Lemma load_last_write_wins_witness :
  (loadCoursesToHashTable (fs_single "courses.csv" file_duplicate) "courses.csv").1 !! "A"
    = Some (mkCourse "A" "y" ["B"]) ∧
  (loadCoursesToHashTable (fs_single "courses.csv" file_duplicate) "courses.csv").2
    = mkOutput "" (line_diagnostics (file_lines file_duplicate)).
Proof.
  apply (load_last_write_wins (fs_single "courses.csv" file_duplicate) "courses.csv"
           file_duplicate ["A,x"] "A,y,B" ["B,z"; "A"] "A" "y" ["B"]).
  - reflexivity.
  - reflexivity.
  - reflexivity.
  - repeat constructor; vm_compute; (lia || discriminate).
Defined.

(** C8 as amended. Every key of the table the loader returns is the first
    token of a line of the file that has at least two tokens; it is the
    empty string exactly when that line begins with the delimiter. *)
Theorem load_key_first_token fs filePath key :
  is_Some ((loadCoursesToHashTable fs filePath).1 !! key) →
  ∃ file lineData,
    fs filePath = Some file ∧
    lineData ∈ file_lines file ∧
    2 ≤ length (tokenize lineData) ∧
    head (tokenize lineData) = Some key ∧
    (key = "" ↔ ∃ rest, lineData = String comma rest).
Proof.
  rewrite load_spec. destruct (fs filePath) as [file|]; cbn [fst].
  2: { rewrite lookup_empty. by intros [? ?]. }
  intros Hkey%elem_of_dom. exists file.
  rewrite foldl_insert_course_dom, dom_empty_L, union_empty_l_L in Hkey.
  apply elem_of_list_to_set, list_elem_of_fmap in Hkey as (c & -> & Hc).
  apply list_elem_of_omap in Hc as (lineData & Hin & Hc).
  apply course_of_line_Some in Hc. exists lineData.
  split_and!; [done|done|rewrite Hc; simpl; lia|by rewrite Hc|].
  rewrite tokenize_getlines in Hc. by eapply getlines_head_empty.
Qed.

Lemma load_key_first_token_witness :
  ∃ file lineData,
    fs_single "courses.csv" file_catalog "courses.csv" = Some file ∧
    lineData ∈ file_lines file ∧
    2 ≤ length (tokenize lineData) ∧
    head (tokenize lineData) = Some "CS201" ∧
    ("CS201" = "" ↔ ∃ rest, lineData = String comma rest).
Proof.
  apply (load_key_first_token (fs_single "courses.csv" file_catalog) "courses.csv" "CS201").
  rewrite load_spec. vm_compute. eauto.
Defined.

(** C8 as stated fails: a line that begins with the delimiter and has two
    tokens is stored under the empty identifier. *)
Lemma load_empty_key_counterexample :
  ¬ ∀ key, is_Some ((loadCoursesToHashTable (fs_single "f" ",Title") "f").1 !! key) →
           key ≠ "".
Proof.
  intros Hall. apply (Hall ""); [|done].
  exists (mkCourse "" "Title" []). rewrite load_spec. by vm_compute.
Qed.

(** ** The tokenizer and the fields of a line *)

Lemma fields_nonempty delim s : fields delim s ≠ [].
Proof.
  destruct s as [|c rest]; simpl; [done|].
  destruct (Ascii.eqb c delim); [done|]. by destruct (fields delim rest).
Qed.

Lemma getlines_fields delim s :
  getlines delim s = drop_last_empty (fields delim s).
Proof.
  induction s as [|c rest IH]; [done|]. simpl.
  pose proof (fields_nonempty delim rest) as Hne.
  destruct (Ascii.eqb c delim).
  - rewrite IH. by destruct (fields delim rest).
  - rewrite IH. destruct (fields delim rest) as [|f [|f' fs]]; [congruence| |].
    + simpl. destruct (decide (f = "")) as [->|Hf]; reflexivity.
    + reflexivity.
Qed.

Lemma getlines_trailing_delimiter delim s :
  getlines delim (s +:+ String delim "") = fields delim s.
Proof.
  induction s as [|c rest IH].
  - simpl. unfold String.append. simpl. by rewrite Ascii.eqb_refl.
  - rewrite string_app_cons. simpl. by rewrite IH.
Qed.

Lemma concat_fields delim s :
  String.concat (String delim "") (fields delim s) = s.
Proof.
  induction s as [|c rest IH]; [done|]. simpl.
  pose proof (fields_nonempty delim rest) as Hne.
  destruct (Ascii.eqb c delim) eqn:Hc.
  - apply Ascii.eqb_eq in Hc as ->.
    destruct (fields delim rest) as [|f fs]; [done|].
    change (String.concat (String delim "") ("" :: f :: fs))
      with (String delim (String.concat (String delim "") (f :: fs))).
    by rewrite IH.
  - destruct (fields delim rest) as [|f [|f' fs]]; [done| |].
    + simpl in *. by rewrite IH.
    + change (String.concat (String delim "") (String c f :: f' :: fs))
        with (String c (String.concat (String delim "") (f :: f' :: fs))).
      by rewrite IH.
Qed.

Lemma fields_delimiter_free delim s :
  Forall (λ field, delim ∉ list_ascii_of_string field) (fields delim s).
Proof.
  induction s as [|c rest IH]; simpl.
  - repeat constructor. simpl. by intros ?%elem_of_nil.
  - destruct (Ascii.eqb c delim) eqn:Hc.
    + constructor; [|done]. simpl. by intros ?%elem_of_nil.
    + apply Ascii.eqb_neq in Hc.
      destruct (fields delim rest) as [|f fs].
      * repeat constructor. simpl. intros [?|?%elem_of_nil]%elem_of_cons; by subst.
      * inversion_clear IH as [|?? Hf Hfs]. constructor; [|done].
        simpl. intros [?|?]%elem_of_cons; [by subst|done].
Qed.

Lemma drop_last_empty_sublist l : drop_last_empty l ⊆ l.
Proof.
  induction l as [|f [|f' fs] IH]; [done| |].
  - simpl. destruct (decide (f = "")); [apply list_subseteq_nil|done].
  - change (drop_last_empty (f :: f' :: fs)) with (f :: drop_last_empty (f' :: fs)).
    intros x [->|Hx]%elem_of_cons; [left|right; by apply IH].
Qed.

Lemma read_lines_turn file lineData file' st :
  getline newline file = Some (lineData, file') →
  read_lines file st = read_lines file' (load_line lineData st).
Proof.
  intros Hget. rewrite !read_lines_fold.
  by rewrite (getlines_getline _ _ _ _ Hget).
Qed.

(** C7 as amended. The tokenizer splits a line at the commas into the
    sequence, in order, of its raw fields (no character of a field is
    removed, white space included), without the last field when that one is
    empty; when fewer than two tokens result, the turn of the loop leaves
    the table as it is, writes the diagnostic, and the loop goes on with the
    rest of the file. *)
Theorem tokenize_raw_and_reject file lineData file' tbl err :
  getline newline file = Some (lineData, file') →
  tokenize lineData = drop_last_empty (fields comma lineData) ∧
  String.concat "," (fields comma lineData) = lineData ∧
  Forall comma_free (tokenize lineData) ∧
  read_lines file (tbl, err) =
    if decide (length (tokenize lineData) < 2)
    then read_lines file' (tbl, err +:+ err_params)
    else read_lines file' (load_line lineData (tbl, err)).
Proof.
  intros Hget. split_and!.
  - by rewrite tokenize_getlines, getlines_fields.
  - apply (concat_fields comma).
  - rewrite tokenize_getlines, getlines_fields.
    eapply Forall_forall. intros token Hin%drop_last_empty_sublist.
    pose proof (fields_delimiter_free comma lineData) as Hfree.
    rewrite Forall_forall in Hfree. by apply Hfree.
  - rewrite (read_lines_turn _ _ _ _ Hget). case_decide as Hlt; [|done].
    apply course_of_line_None in Hlt. by rewrite load_line_course, Hlt.
Qed.

Lemma tokenize_raw_and_reject_witness :
  tokenize "CS101" = drop_last_empty (fields comma "CS101") ∧
  String.concat "," (fields comma "CS101") = "CS101" ∧
  Forall comma_free (tokenize "CS101") ∧
  read_lines ("CS101" +:+ endl +:+ "CS201,Data Structures,CS101") (∅, "") =
    if decide (length (tokenize "CS101") < 2)
    then read_lines "CS201,Data Structures,CS101" (∅, "" +:+ err_params)
    else read_lines "CS201,Data Structures,CS101" (load_line "CS101" (∅, "")).
Proof.
  apply (tokenize_raw_and_reject ("CS101" +:+ endl +:+ "CS201,Data Structures,CS101")
           "CS101" "CS201,Data Structures,CS101" ∅ "").
  reflexivity.
Defined.

(** C7 as stated fails: the tokens are not trimmed. *)
Lemma tokenize_trimmed_counterexample :
  ¬ Forall (λ token, is_trimmed token = true) (tokenize " A , B").
Proof.
  rewrite tokenize_getlines. intros Hall. by inversion Hall.
Qed.

(** C10 as amended. On a line that ends in the delimiter the tokenizer
    drops the empty field after that last delimiter and nothing else: the
    tokens are all the fields of the text before it. So ["A,B,"] loads a
    course without prerequisites and ["A,"] has one token and is rejected,
    while a line that ends in two delimiters keeps an empty last token. *)
Theorem tokenize_trailing_delimiter :
  (∀ body, tokenize (body +:+ ",") = fields comma body) ∧
  loadCoursesToHashTable (fs_single "f" "A,B,") "f"
    = ({[ "A" := mkCourse "A" "B" [] ]}, mkOutput "" "") ∧
  tokenize "A," = ["A"] ∧
  loadCoursesToHashTable (fs_single "f" "A,") "f" = (∅, mkOutput "" err_params) ∧
  tokenize "A,B,," = ["A"; "B"; ""].
Proof.
  split_and!.
  - intros body. rewrite tokenize_getlines. apply getlines_trailing_delimiter.
  - rewrite load_spec. by vm_compute.
  - by rewrite tokenize_getlines.
  - rewrite load_spec. by vm_compute.
  - by rewrite tokenize_getlines.
Qed.

(** C10 as stated fails: a line that ends in two delimiters has an empty
    last token, which the loader stores as a prerequisite. *)
Lemma tokenize_trailing_empty_counterexample :
  ¬ (∀ body, last (tokenize (body +:+ ",")) ≠ Some "") ∧
  (loadCoursesToHashTable (fs_single "f" "A,B,,") "f").1 !! "A"
    = Some (mkCourse "A" "B" [""]).
Proof.
  split.
  - intros Hall. apply (Hall "A,B,"). by rewrite tokenize_getlines.
  - rewrite load_spec. by vm_compute.
Qed.

(** ** searchCourseInHashTable: claims *)

Lemma print_prerequisites_joined prerequisite prereqs :
  print_prerequisites (prerequisite :: prereqs)
  = String.concat " " (prerequisite :: prereqs) +:+ " ".
Proof.
  revert prerequisite. induction prereqs as [|p prereqs IH]; intros prerequisite.
  - done.
  - change (print_prerequisites (prerequisite :: p :: prereqs))
      with (prerequisite +:+ " " +:+ print_prerequisites (p :: prereqs)).
    change (String.concat " " (prerequisite :: p :: prereqs))
      with (prerequisite +:+ " " +:+ String.concat " " (p :: prereqs)).
    by rewrite IH, !string_app_assoc.
Qed.

(** C6 as amended. For an identifier in the table the search writes the
    record's number, its title and its prerequisites in stored order, each
    prerequisite followed by one space (the space-joined sequence and one
    more space), or [None] when there is none; for an identifier not in the
    table it writes the not-found diagnostic, and nothing else. *)
Theorem search_output (m : HashTable) (courseNo : string) :
  searchCourseInHashTable m courseNo =
  match m !! courseNo with
  | Some course =>
      mkOutput
        ("Course Number: " +:+ number course +:+ endl +:+
         "Course Title: " +:+ title course +:+ endl +:+
         "Prerequisites: " +:+
         match prerequisites course with
         | [] => "None"
         | prereqs => String.concat " " prereqs +:+ " "
         end +:+ endl)
        ""
  | None => mkOutput "" ("Error: Course " +:+ courseNo +:+ " not found." +:+ endl)
  end.
Proof.
  unfold searchCourseInHashTable. destruct (m !! courseNo) as [course|]; [|done].
  destruct (prerequisites course) as [|p ps]; [done|].
  by rewrite print_prerequisites_joined.
Qed.

(** C6 as stated fails: the text for a course with a prerequisite is not
    the one with the space-joined sequence, it has a space more. *)
Lemma search_joined_counterexample :
  table_catalog !! "CS201" = Some (mkCourse "CS201" "Data Structures" ["CS101"]) ∧
  cout (searchCourseInHashTable table_catalog "CS201")
  ≠ search_text_joined (mkCourse "CS201" "Data Structures" ["CS101"]).
Proof. split; [done|]. by vm_compute. Qed.

(** ** validateHashTable: claims *)

Lemma collect_courseNumbers_keys entries :
  collect_courseNumbers entries = list_to_set entries.*1.
Proof.
  unfold collect_courseNumbers.
  assert (∀ acc : gset string,
    foldl (λ courseNumbers entry, {[ entry.1 ]} ∪ courseNumbers) acc entries
    = list_to_set entries.*1 ∪ acc) as Hacc.
  { induction entries as [|e entries IH]; intros acc; simpl.
    - by rewrite union_empty_l_L.
    - rewrite IH, (assoc_L (∪)). by rewrite (comm_L (∪) (list_to_set _) {[ e.1 ]}). }
  by rewrite Hacc, union_empty_r_L.
Qed.

Lemma check_prerequisites_first courseNumbers prereqs :
  check_prerequisites courseNumbers prereqs
  = head (filter (λ prerequisite, prerequisite ∉ courseNumbers) prereqs).
Proof.
  induction prereqs as [|p prereqs IH]; [done|]. simpl. rewrite filter_cons.
  destruct (decide (p ∈ courseNumbers)) as [Hin|Hout].
  - by rewrite decide_False by (by intros []).
  - by rewrite decide_True.
Qed.

Lemma check_courses_first courseNumbers entries :
  check_courses courseNumbers entries =
  match head (filter (λ prerequisite, prerequisite ∉ courseNumbers)
                     (entries ≫= λ entry, prerequisites entry.2)) with
  | Some prerequisite => (false, err_prerequisite prerequisite)
  | None => (true, "")
  end.
Proof.
  induction entries as [|e entries IH]; [done|].
  cbn [check_courses]. rewrite bind_cons, filter_app, head_app.
  rewrite check_prerequisites_first.
  by destruct (head (filter _ (prerequisites e.2))).
Qed.

Section IterationOrder.
Variable iterate : HashTable → list (string * Course).
Hypothesis iterate_entries : ∀ m, iterate m ≡ₚ map_to_list m.

Lemma iterate_lookup m key course :
  (key, course) ∈ iterate m ↔ m !! key = Some course.
Proof. by rewrite iterate_entries, elem_of_map_to_list. Qed.

Lemma iterate_keys m : list_to_set (iterate m).*1 = dom m.
Proof.
  apply set_eq. intros key.
  rewrite elem_of_list_to_set, elem_of_dom, list_elem_of_fmap. split.
  - intros ([k c] & -> & Hin). apply iterate_lookup in Hin. by exists c.
  - intros [c Hc]. exists (key, c). split; [done|]. by apply iterate_lookup.
Qed.

Lemma validateHashTable_first m :
  validateHashTable iterate m =
  match first_missing m (iterate m) with
  | Some prerequisite => (false, mkOutput "" (err_prerequisite prerequisite))
  | None => (true, mkOutput "" "")
  end.
Proof.
  unfold validateHashTable, first_missing.
  rewrite collect_courseNumbers_keys, iterate_keys, check_courses_first.
  by destruct (head _).
Qed.

(** C1. The validator returns true exactly when every prerequisite of
    every course is a key of the table. Otherwise it returns false at the
    first prerequisite, in the order the courses are visited, that is no
    key: that one is reported and nothing after it is looked at. *)
Theorem validate_iff_prerequisites_defined m :
  ((validateHashTable iterate m).1 = true ↔
   ∀ key course prerequisite,
     m !! key = Some course → prerequisite ∈ prerequisites course →
     is_Some (m !! prerequisite)) ∧
  validateHashTable iterate m =
    match first_missing m (iterate m) with
    | Some prerequisite => (false, mkOutput "" (err_prerequisite prerequisite))
    | None => (true, mkOutput "" "")
    end ∧
  ∀ visited entry rest prerequisite,
    iterate m = visited ++ entry :: rest →
    first_missing m visited = None →
    first_missing m [entry] = Some prerequisite →
    validateHashTable iterate m = (false, mkOutput "" (err_prerequisite prerequisite)).
Proof.
  split_and!; [|apply validateHashTable_first|].
  - rewrite validateHashTable_first. unfold first_missing.
    destruct (head _) as [p|] eqn:Hhead; simpl; split; try done.
    + intros Hall. apply head_Some_elem_of, list_elem_of_filter in Hhead as [Hout Hin].
      apply list_elem_of_bind in Hin as ([k c] & Hp & Hin).
      apply iterate_lookup in Hin. destruct Hout.
      apply elem_of_dom. by eapply Hall.
    + intros _ key course p Hc Hp. apply head_None in Hhead.
      apply elem_of_dom. destruct (decide (p ∈ dom m)) as [|Hout]; [done|].
      assert (p ∈ filter (λ prerequisite, prerequisite ∉ dom m)
                    (iterate m ≫= λ entry, prerequisites entry.2)) as Hin.
      { apply list_elem_of_filter. split; [done|].
        apply list_elem_of_bind. exists (key, course).
        split; [done|]. by apply iterate_lookup. }
      rewrite Hhead in Hin. by apply elem_of_nil in Hin.
  - intros visited entry rest p Hiter Hvisited Hentry.
    rewrite validateHashTable_first. unfold first_missing in *.
    rewrite Hiter, bind_app, bind_cons, !filter_app, !head_app, Hvisited.
    rewrite bind_cons in Hentry. change ([] ≫= _) with (@nil string) in Hentry.
    rewrite app_nil_r in Hentry. by rewrite Hentry.
Qed.
End IterationOrder.

Lemma validate_iff_prerequisites_defined_witness :
  ((validateHashTable map_to_list table_catalog).1 = true ↔
   ∀ key course prerequisite,
     table_catalog !! key = Some course → prerequisite ∈ prerequisites course →
     is_Some (table_catalog !! prerequisite)) ∧
  validateHashTable map_to_list table_catalog =
    match first_missing table_catalog (map_to_list table_catalog) with
    | Some prerequisite => (false, mkOutput "" (err_prerequisite prerequisite))
    | None => (true, mkOutput "" "")
    end ∧
  ∀ visited entry rest prerequisite,
    map_to_list table_catalog = visited ++ entry :: rest →
    first_missing table_catalog visited = None →
    first_missing table_catalog [entry] = Some prerequisite →
    validateHashTable map_to_list table_catalog
      = (false, mkOutput "" (err_prerequisite prerequisite)).
Proof.
  apply (validate_iff_prerequisites_defined map_to_list).
  intros m. reflexivity.
Defined.

(** ** PrintAllCourses: claims *)

Lemma string_le_lt s1 s2 : String.le s1 s2 → s1 ≠ s2 → string_lt s1 s2.
Proof.
  unfold String.le, String.leb, string_lt. intros Hle Hne.
  destruct (String.compare s1 s2) eqn:Hcmp; [|done|done].
  by apply String.compare_eq_iff in Hcmp.
Qed.

Lemma StronglySorted_le_lt (l : list string) :
  NoDup l → StronglySorted String.le l → StronglySorted string_lt l.
Proof.
  induction 1 as [|x l Hx _ IH]; [constructor|].
  intros [Hl Hall]%StronglySorted_inv. constructor; [by apply IH|].
  rewrite Forall_forall in Hall |- *. intros y Hy.
  apply string_le_lt; [by apply Hall|]. by intros ->.
Qed.

Lemma print_courses_present m out courseNumbers :
  Forall (λ key, is_Some (m !! key)) courseNumbers →
  foldl print_course (m, out) courseNumbers =
  (m, out +:+ text_of ((λ key, number (m !!! key) +:+ ": " +:+ title (m !!! key) +:+ endl)
                         <$> courseNumbers)).
Proof.
  revert out. induction courseNumbers as [|key keys IH]; intros out Hall.
  - simpl. by rewrite string_app_nil_r.
  - inversion_clear Hall as [|?? [course Hc] Hrest].
    cbn [foldl]. unfold print_course at 2, subscript. rewrite Hc.
    rewrite IH by done. rewrite fmap_cons. cbn [text_of foldr].
    rewrite (lookup_total_correct _ _ _ Hc). by rewrite !string_app_assoc.
Qed.

Section ListingOrder.
Variable iterate : HashTable → list (string * Course).
Hypothesis iterate_entries : ∀ m, iterate m ≡ₚ map_to_list m.

(** C4. Whatever the order in which the table is visited, and for every
    table that holds its courses under their numbers (as every table of the
    loader does, [load_keyed_by_number]), the listing is the header followed
    by one line [identifier: title] for each stored course, the identifiers
    in strictly ascending byte order. *)
Theorem print_all_sorted m :
  keyed_by_number m →
  ∃ entries : list (string * Course),
    entries ≡ₚ map_to_list m ∧
    StronglySorted string_lt entries.*1 ∧
    PrintAllCourses iterate m
      = mkOutput (print_header +:+ text_of (listing_line <$> entries)) "".
Proof.
  intros Hkeyed.
  set (keys := std_sort (iterate m).*1).
  assert (keys ≡ₚ (map_to_list m).*1) as Hperm.
  { unfold keys, std_sort. by rewrite merge_sort_Permutation, iterate_entries. }
  assert (NoDup keys) as Hnodup.
  { rewrite Hperm. apply NoDup_fst_map_to_list. }
  assert (∀ key, key ∈ keys ↔ is_Some (m !! key)) as Hkeys.
  { intros key. rewrite Hperm, list_elem_of_fmap. split.
    - intros ([k c] & -> & Hin%elem_of_map_to_list). by exists c.
    - intros [c Hc]. exists (key, c). by rewrite elem_of_map_to_list. }
  exists ((λ key, (key, m !!! key)) <$> keys). split_and!.
  - apply NoDup_Permutation.
    + apply NoDup_fmap_2; [|done]. by intros k1 k2 [= ->].
    + apply NoDup_map_to_list.
    + intros [k c]. rewrite list_elem_of_fmap, elem_of_map_to_list. split.
      * intros (key & [= -> ->] & [c' Hc]%Hkeys).
        by rewrite (lookup_total_correct _ _ _ Hc).
      * intros Hc. exists k. rewrite (lookup_total_correct _ _ _ Hc).
        split; [done|]. apply Hkeys. by exists c.
  - rewrite <- list_fmap_compose.
    rewrite (list_fmap_ext _ id keys) by done. rewrite list_fmap_id.
    apply StronglySorted_le_lt; [done|].
    apply (StronglySorted_merge_sort String.le).
  - unfold PrintAllCourses. fold keys.
    rewrite print_courses_present.
    2: { apply Forall_forall. intros key Hin. by apply Hkeys. }
    rewrite <- list_fmap_compose. do 3 f_equal.
    apply list_fmap_ext. intros i key [c Hc]%list_elem_of_lookup_2%Hkeys.
    unfold listing_line, compose. cbn [fst snd].
    rewrite (lookup_total_correct _ _ _ Hc). by rewrite (Hkeyed _ _ Hc).
Qed.
End ListingOrder.

Lemma print_all_sorted_witness :
  ∃ entries : list (string * Course),
    entries ≡ₚ map_to_list table_catalog ∧
    StronglySorted string_lt entries.*1 ∧
    PrintAllCourses map_to_list table_catalog
      = mkOutput (print_header +:+ text_of (listing_line <$> entries)) "".
Proof.
  apply (print_all_sorted map_to_list (λ m, reflexivity (map_to_list m)) table_catalog).
  intros key course. unfold table_catalog.
  rewrite !lookup_insert_Some, lookup_singleton_Some.
  intros [[<- <-]|[_ [[<- <-]|[_ [<- <-]]]]]; reflexivity.
Defined.

(** ** The example of the specification, run *)

Example example_load :
  loadCoursesToHashTable (fs_single "courses.csv" file_catalog) "courses.csv"
  = (table_example, mkOutput "" "").
Proof. rewrite load_spec. by vm_compute. Qed.

Example example_load_size : size table_example = 3.
Proof. by vm_compute. Qed.

Example example_validate :
  validateHashTable map_to_list table_example
  = (false, mkOutput "" ("Error: Prerequisite CS999 does not exist as a course." +:+ endl)).
Proof. by vm_compute. Qed.

Example example_listing :
  PrintAllCourses map_to_list table_example
  = mkOutput ("Courses in the Computer Science department:" +:+ endl +:+
              "CS101: Intro to CS" +:+ endl +:+
              "CS201: Data Structures" +:+ endl +:+
              "CS301: Algorithms" +:+ endl) "".
Proof. by vm_compute. Qed.

Example example_search :
  searchCourseInHashTable table_example "CS201"
  = mkOutput ("Course Number: CS201" +:+ endl +:+
              "Course Title: Data Structures" +:+ endl +:+
              "Prerequisites: CS101 " +:+ endl) "".
Proof. by vm_compute. Qed.

Example example_search_absent :
  searchCourseInHashTable table_example "CS999"
  = mkOutput "" ("Error: Course CS999 not found." +:+ endl).
Proof. by vm_compute. Qed.

Example example_tokens :
  tokenize "CS301,Algorithms,CS201,CS999" = ["CS301"; "Algorithms"; "CS201"; "CS999"]
  ∧ tokenize "" = [] ∧ tokenize "," = [""] ∧ tokenize ",," = [""; ""]
  ∧ tokenize " A , B" = [" A "; " B"].
Proof. by rewrite !tokenize_getlines. Qed.

Example example_session :
  main_init (fs_single "courses.csv" file_catalog)
  = (mkSession "" "" ∅, mkOutput "" err_open).
Proof. by vm_compute. Qed.

(** ** More on the tokenizer *)

Lemma fields_delimiter_free_token delim token :
  delim ∉ list_ascii_of_string token → fields delim token = [token].
Proof.
  induction token as [|c token IH]; [done|]. simpl. intros Hfree.
  destruct (Ascii.eqb c delim) eqn:Hc.
  - apply Ascii.eqb_eq in Hc as ->. destruct Hfree. left.
  - rewrite IH; [done|]. intros Hin. apply Hfree. by right.
Qed.

Lemma fields_token_delimiter delim token s :
  delim ∉ list_ascii_of_string token →
  fields delim (token +:+ String delim s) = token :: fields delim s.
Proof.
  induction token as [|c token IH]; intros Hfree.
  - change ("" +:+ String delim s) with (String delim s). simpl.
    by rewrite Ascii.eqb_refl.
  - rewrite string_app_cons. simpl in *.
    destruct (Ascii.eqb c delim) eqn:Hc.
    + apply Ascii.eqb_eq in Hc as ->. destruct Hfree. left.
    + rewrite IH; [done|]. intros Hin. apply Hfree. by right.
Qed.

Lemma fields_concat delim tokens :
  tokens ≠ [] →
  Forall (λ token, delim ∉ list_ascii_of_string token) tokens →
  fields delim (String.concat (String delim "") tokens) = tokens.
Proof.
  induction tokens as [|t [|t' ts] IH]; intros Hne Hfree; [done| |].
  - inversion_clear Hfree. by apply fields_delimiter_free_token.
  - inversion_clear Hfree as [|?? Ht Hts].
    change (String.concat (String delim "") (t :: t' :: ts))
      with (t +:+ String delim "" +:+ String.concat (String delim "") (t' :: ts)).
    change (String delim "" +:+ ?x) with (String delim x).
    rewrite fields_token_delimiter by done. by rewrite IH.
Qed.

Lemma drop_last_empty_id (l : list string) :
  last l ≠ Some "" → drop_last_empty l = l.
Proof.
  induction l as [|f [|f' fs] IH]; intros Hlast; [done| |].
  - simpl in *. rewrite decide_False; [done|]. by intros ->.
  - change (drop_last_empty (f :: f' :: fs)) with (f :: drop_last_empty (f' :: fs)).
    by rewrite IH.
Qed.


Lemma getlines_nil delim s : getlines delim s = [] ↔ s = "".
Proof.
  destruct s as [|c rest]; [done|]. simpl.
  destruct (Ascii.eqb c delim); [done|]. by destruct (getlines delim rest).
Qed.

Lemma string_app_nil_l (s : string) : "" +:+ s = s.
Proof. reflexivity. Qed.

Lemma last_char_cons c c' rest :
  last_char (String c (String c' rest)) = last_char (String c' rest).
Proof. reflexivity. Qed.

Lemma fields_chars delim s field ch :
  field ∈ fields delim s → ch ∈ list_ascii_of_string field →
  ch ∈ list_ascii_of_string s.
Proof.
  revert field. induction s as [|c rest IH]; intros field; simpl.
  - intros ->%list_elem_of_singleton. done.
  - destruct (Ascii.eqb c delim).
    + intros [->|Hin]%elem_of_cons Hch; [by apply elem_of_nil in Hch|].
      right. by eapply IH.
    + destruct (fields delim rest) as [|g gs] eqn:Hrest.
      * intros ->%list_elem_of_singleton. simpl.
        intros [->|Hch%elem_of_nil]%elem_of_cons; [left|done].
      * intros [->|Hin]%elem_of_cons; simpl.
        -- intros [->|Hch]%elem_of_cons; [left|right].
           eapply IH; [|done]. left.
        -- intros Hch. right. eapply IH; [|done]. by right.
Qed.

(** X1. Writing tokens that hold no comma with commas between them and
    tokenizing the line gives the tokens back, provided the last token is
    not empty (an empty last token is the one the tokenizer drops). *)
Theorem tokenize_join tokens :
  Forall comma_free tokens → last tokens ≠ Some "" →
  tokenize (join_tokens tokens) = tokens.
Proof.
  intros Hfree Hlast. rewrite tokenize_getlines, getlines_fields.
  destruct tokens as [|t ts]; [done|].
  unfold join_tokens. change "," with (String comma "").
  rewrite fields_concat by done. by apply drop_last_empty_id.
Qed.

Lemma tokenize_join_witness :
  tokenize (join_tokens ["CS301"; "Algorithms"; ""; "CS201"])
  = ["CS301"; "Algorithms"; ""; "CS201"].
Proof.
  apply (tokenize_join ["CS301"; "Algorithms"; ""; "CS201"]).
  - unfold comma_free. apply (bool_decide_unpack _). by vm_compute.
  - discriminate.
Defined.

(** X2. Tokenizing loses nothing but one final comma: a line is its
    tokens written with commas between them, followed by a comma exactly
    when the line ends in one. *)
Theorem join_tokenize lineData :
  lineData =
  join_tokens (tokenize lineData) +:+
  (if decide (last_char lineData = Some comma) then "," else "").
Proof.
  rewrite tokenize_getlines. unfold join_tokens. change "," with (String comma "").
  induction lineData as [|c rest IH]; [done|]. simpl getlines.
  destruct (Ascii.eqb c comma) eqn:Hc.
  - apply Ascii.eqb_eq in Hc as ->. destruct rest as [|c' rest]; [done|].
    rewrite last_char_cons.
    destruct (getlines comma (String c' rest)) as [|g gs] eqn:Hg.
    { by apply getlines_nil in Hg. }
    change (String.concat (String comma "") ("" :: g :: gs))
      with (String comma (String.concat (String comma "") (g :: gs))).
    rewrite string_app_cons. by rewrite <- IH.
  - apply Ascii.eqb_neq in Hc. destruct rest as [|c' rest].
    + simpl. rewrite decide_False; [done|]. unfold last_char. simpl. congruence.
    + rewrite last_char_cons.
      destruct (getlines comma (String c' rest)) as [|g gs] eqn:Hg.
      { by apply getlines_nil in Hg. }
      assert (String.concat (String comma "") (String c g :: gs)
              = String c (String.concat (String comma "") (g :: gs))) as ->
        by by destruct gs.
      rewrite string_app_cons. by rewrite <- IH.
Qed.

(** X3. A line has at least two tokens, and so is loaded, exactly when it
    holds a comma that is not its last character. *)
Theorem accepted_iff_inner_comma lineData :
  2 ≤ length (tokenize lineData) ↔
  ∃ before c after, lineData = before +:+ String comma (String c after).
Proof.
  rewrite tokenize_getlines. induction lineData as [|c rest IH].
  - simpl. split; [lia|]. intros (before & c & after & Heq).
    destruct before; [by rewrite string_app_nil_l in Heq|by rewrite string_app_cons in Heq].
  - simpl. destruct (Ascii.eqb c comma) eqn:Hc.
    + apply Ascii.eqb_eq in Hc as ->. simpl. split.
      * intros Hlen. destruct rest as [|c' rest']; [simpl in Hlen; lia|].
        by exists "", c', rest'.
      * intros (before & c' & after & Heq).
        assert (rest ≠ "") as Hrest.
        { destruct before as [|b before].
          - rewrite string_app_nil_l in Heq. by injection Heq as ->.
          - rewrite string_app_cons in Heq. injection Heq as _ ->. by destruct before. }
        pose proof (getlines_nil comma rest) as Hnil.
        destruct (getlines comma rest); [by destruct Hrest; apply Hnil|simpl; lia].
    + apply Ascii.eqb_neq in Hc.
      assert (length (match getlines comma rest with
                      | [] => [String c ""]
                      | tok :: toks => String c tok :: toks
                      end) = max 1 (length (getlines comma rest))) as ->
        by (destruct (getlines comma rest); simpl; lia).
      split.
      * intros Hlen. destruct IH as [IH _].
        destruct IH as (before & c' & after & ->); [lia|].
        by exists (String c before), c', after.
      * intros (before & c' & after & Heq).
        destruct before as [|b before].
        { rewrite string_app_nil_l in Heq. by injection Heq as ->. }
        rewrite string_app_cons in Heq. injection Heq as _ ->.
        destruct IH as [_ IH]. specialize (IH (ex_intro _ before (ex_intro _ c' (ex_intro _ after eq_refl)))).
        lia.
Qed.

(** ** More on the loader *)

Lemma foldl_insert_course_lookup m courses key course :
  foldl insert_course m courses !! key = Some course →
  m !! key = Some course ∨ (course ∈ courses ∧ number course = key).
Proof.
  revert m. induction courses as [|c courses IH]; intros m; [by left|].
  simpl. intros [Hm|[Hin Hkey]]%IH.
  - unfold insert_course in Hm. apply lookup_insert_Some in Hm as [[<- <-]|[_ Hm]].
    + right. split; [left|done].
    + by left.
  - right. split; [by right|done].
Qed.

Lemma load_lookup_line fs filePath key course :
  (loadCoursesToHashTable fs filePath).1 !! key = Some course →
  number course = key ∧
  ∃ file lineData,
    fs filePath = Some file ∧ lineData ∈ file_lines file ∧
    tokenize lineData = key :: title course :: prerequisites course.
Proof.
  rewrite load_spec. destruct (fs filePath) as [file|]; cbn [fst]; [|done].
  intros [Hempty|[Hin <-]]%foldl_insert_course_lookup; [done|].
  split; [done|]. apply list_elem_of_omap in Hin as (lineData & Hin & Hc).
  apply course_of_line_Some in Hc. by exists file, lineData.
Qed.

(** X4. Every record of the table the loader returns is one line of the
    file, whole: it is stored under its own number, and some line of the
    file has exactly the tokens number, title, prerequisites. *)
Theorem load_record_is_line fs filePath key course :
  (loadCoursesToHashTable fs filePath).1 !! key = Some course →
  number course = key ∧
  ∃ file lineData,
    fs filePath = Some file ∧ lineData ∈ file_lines file ∧
    tokenize lineData = number course :: title course :: prerequisites course.
Proof.
  intros Hc. destruct (load_lookup_line _ _ _ _ Hc) as [Hkey Hline].
  by rewrite Hkey.
Qed.

Lemma load_record_is_line_witness :
  number (mkCourse "CS201" "Data Structures" ["CS101"]) = "CS201" ∧
  ∃ file lineData,
    fs_single "courses.csv" file_catalog "courses.csv" = Some file ∧
    lineData ∈ file_lines file ∧
    tokenize lineData = number (mkCourse "CS201" "Data Structures" ["CS101"])
      :: title (mkCourse "CS201" "Data Structures" ["CS101"])
      :: prerequisites (mkCourse "CS201" "Data Structures" ["CS101"]).
Proof.
  apply (load_record_is_line (fs_single "courses.csv" file_catalog) "courses.csv"
           "CS201" (mkCourse "CS201" "Data Structures" ["CS101"])).
  rewrite load_spec. by vm_compute.
Defined.

(** X5. The keys of the table the loader returns are exactly the first
    tokens of the lines of the file that have at least two tokens: no such
    line is lost, whatever surrounds it. *)
Theorem load_keys_accepted_lines fs filePath file key :
  fs filePath = Some file →
  is_Some ((loadCoursesToHashTable fs filePath).1 !! key) ↔
  ∃ lineData courseTitle prereqs,
    lineData ∈ file_lines file ∧ tokenize lineData = key :: courseTitle :: prereqs.
Proof.
  intros Hopen. split.
  - intros [course Hc]. apply load_lookup_line in Hc as (_ & file' & lineData & Hf & Hin & Htok).
    assert (file' = file) as -> by congruence. eauto.
  - intros (lineData & courseTitle & prereqs & Hin & Htok).
    rewrite load_spec, Hopen. cbn [fst]. apply elem_of_dom.
    rewrite foldl_insert_course_dom, dom_empty_L, union_empty_l_L.
    apply elem_of_list_to_set, list_elem_of_fmap.
    exists (mkCourse key courseTitle prereqs). split; [done|].
    apply list_elem_of_omap. exists lineData. split; [done|].
    by apply course_of_line_Some.
Qed.

Lemma load_keys_accepted_lines_witness :
  is_Some ((loadCoursesToHashTable (fs_single "courses.csv" file_duplicate)
              "courses.csv").1 !! "B") ↔
  ∃ lineData courseTitle prereqs,
    lineData ∈ file_lines file_duplicate ∧
    tokenize lineData = "B" :: courseTitle :: prereqs.
Proof.
  apply (load_keys_accepted_lines (fs_single "courses.csv" file_duplicate)
           "courses.csv" file_duplicate "B").
  reflexivity.
Defined.

Lemma file_lines_newline_free file lineData :
  lineData ∈ file_lines file → newline_free lineData.
Proof.
  unfold file_lines. rewrite getlines_fields. intros Hin%drop_last_empty_sublist.
  pose proof (fields_delimiter_free newline file) as Hfree.
  rewrite Forall_forall in Hfree. by apply Hfree.
Qed.

Lemma tokenize_chars lineData token ch :
  token ∈ tokenize lineData → ch ∈ list_ascii_of_string token →
  ch ∈ list_ascii_of_string lineData.
Proof.
  rewrite tokenize_getlines, getlines_fields.
  intros Hin%drop_last_empty_sublist. by apply (fields_chars comma).
Qed.

Lemma tokenize_comma_free lineData token :
  token ∈ tokenize lineData → comma_free token.
Proof.
  rewrite tokenize_getlines, getlines_fields. intros Hin%drop_last_empty_sublist.
  pose proof (fields_delimiter_free comma lineData) as Hfree.
  rewrite Forall_forall in Hfree. by apply Hfree.
Qed.

(** X6. No string the loader stores (a number, a title, a prerequisite)
    holds a comma or a line feed. *)
Theorem load_stored_text_clean fs filePath key course :
  (loadCoursesToHashTable fs filePath).1 !! key = Some course →
  Forall (λ text, comma_free text ∧ newline_free text)
         (number course :: title course :: prerequisites course).
Proof.
  intros (Hkey & file & lineData & _ & Hin & Htok)%load_lookup_line.
  rewrite Hkey, <- Htok. apply Forall_forall. intros token Htoken. split.
  - by eapply tokenize_comma_free.
  - intros Hnl. eapply (file_lines_newline_free _ _ Hin).
    by eapply tokenize_chars.
Qed.

Lemma load_stored_text_clean_witness :
  Forall (λ text, comma_free text ∧ newline_free text)
         (number (mkCourse "A" "y" ["B"]) :: title (mkCourse "A" "y" ["B"])
            :: prerequisites (mkCourse "A" "y" ["B"])).
Proof.
  apply (load_stored_text_clean (fs_single "courses.csv" file_duplicate)
           "courses.csv" "A" (mkCourse "A" "y" ["B"])).
  rewrite load_spec. by vm_compute.
Defined.

Lemma string_app_eq_nil (s1 s2 : string) : s1 +:+ s2 = "" ↔ s1 = "" ∧ s2 = "".
Proof.
  destruct s1; [by rewrite string_app_nil_l; split; [|intros []]|].
  rewrite string_app_cons. split; [done|by intros []].
Qed.

Lemma line_diagnostics_nil (lines : list string) :
  line_diagnostics lines = "" ↔
  Forall (λ lineData, 2 ≤ length (tokenize lineData)) lines.
Proof.
  induction lines as [|l lines IH]; [done|].
  cbn [line_diagnostics]. rewrite string_app_eq_nil, IH, Forall_cons.
  case_decide; split; intros [? ?]; (split; [done || lia|done]).
Qed.

(** X7. When the file opens, the loader writes no diagnostic exactly when
    every line of the file has at least two tokens. *)
Theorem load_silent_iff_all_accepted fs filePath file :
  fs filePath = Some file →
  cerr (loadCoursesToHashTable fs filePath).2 = "" ↔
  Forall (λ lineData, 2 ≤ length (tokenize lineData)) (file_lines file).
Proof.
  intros Hopen. rewrite load_spec, Hopen. cbn [snd cerr].
  apply line_diagnostics_nil.
Qed.

Lemma load_silent_iff_all_accepted_witness :
  cerr (loadCoursesToHashTable (fs_single "courses.csv" file_catalog) "courses.csv").2 = "" ↔
  Forall (λ lineData, 2 ≤ length (tokenize lineData)) (file_lines file_catalog).
Proof.
  apply (load_silent_iff_all_accepted (fs_single "courses.csv" file_catalog)
           "courses.csv" file_catalog).
  reflexivity.
Defined.

Lemma fields_last_empty delim s :
  last (fields delim s) = Some "" → s = "" ∨ last_char s = Some delim.
Proof.
  induction s as [|c rest IH]; [by left|]. simpl. intros Hlast. right.
  pose proof (fields_nonempty delim rest) as Hne.
  destruct (Ascii.eqb c delim) eqn:Hc.
  - apply Ascii.eqb_eq in Hc as ->.
    destruct (fields delim rest) as [|g gs] eqn:Hrest; [done|].
    rewrite last_cons_cons in Hlast.
    destruct rest as [|c' rest']; [done|]. rewrite last_char_cons.
    by destruct (IH Hlast).
  - destruct (fields delim rest) as [|g [|g' gs]] eqn:Hrest; [done|done|].
    rewrite last_cons_cons in Hlast.
    destruct rest as [|c' rest']; [done|]. rewrite last_char_cons.
    by destruct (IH Hlast).
Qed.

Lemma getlines_append_delimiter delim s :
  s ≠ "" → last_char s ≠ Some delim →
  getlines delim (s +:+ String delim "") = getlines delim s.
Proof.
  intros Hne Hlast. rewrite getlines_trailing_delimiter, getlines_fields.
  symmetry. apply drop_last_empty_id.
  intros Hempty%fields_last_empty. by destruct Hempty.
Qed.

(** X8. A line feed after the last line does not matter: for a file that
    is not empty and does not end in a line feed, the loader returns the
    same table and the same diagnostics with the line feed added. *)
Theorem load_final_newline fs1 fs2 filePath1 filePath2 file :
  fs1 filePath1 = Some file →
  fs2 filePath2 = Some (file +:+ endl) →
  file ≠ "" → last_char file ≠ Some newline →
  loadCoursesToHashTable fs2 filePath2 = loadCoursesToHashTable fs1 filePath1.
Proof.
  intros Hopen1 Hopen2 Hne Hlast. rewrite !load_spec, Hopen1, Hopen2.
  unfold file_lines, endl. by rewrite getlines_append_delimiter.
Qed.

Lemma load_final_newline_witness :
  loadCoursesToHashTable (fs_single "b.csv" ("A,x" +:+ endl +:+ "B,y" +:+ endl)) "b.csv"
  = loadCoursesToHashTable (fs_single "a.csv" ("A,x" +:+ endl +:+ "B,y")) "a.csv".
Proof.
  apply (load_final_newline (fs_single "a.csv" ("A,x" +:+ endl +:+ "B,y"))
           (fs_single "b.csv" ("A,x" +:+ endl +:+ "B,y" +:+ endl))
           "a.csv" "b.csv" ("A,x" +:+ endl +:+ "B,y")).
  - reflexivity.
  - reflexivity.
  - discriminate.
  - vm_compute. discriminate.
Defined.

Lemma getlines_app delim s1 s2 :
  getlines delim (s1 +:+ String delim s2) = fields delim s1 ++ getlines delim s2.
Proof.
  induction s1 as [|c s1 IH].
  - rewrite string_app_nil_l. simpl. by rewrite Ascii.eqb_refl.
  - rewrite string_app_cons. simpl. rewrite IH.
    pose proof (fields_nonempty delim s1) as Hne.
    destruct (Ascii.eqb c delim); [done|]. by destruct (fields delim s1).
Qed.

Lemma file_lines_app file1 file2 :
  file_lines ((file1 +:+ endl) +:+ file2) = file_lines (file1 +:+ endl) ++ file_lines file2.
Proof.
  unfold file_lines, endl. rewrite string_app_assoc.
  change (String newline "" +:+ file2) with (String newline file2).
  by rewrite getlines_app, getlines_trailing_delimiter.
Qed.

Lemma line_diagnostics_app (lines1 lines2 : list string) :
  line_diagnostics (lines1 ++ lines2) = line_diagnostics lines1 +:+ line_diagnostics lines2.
Proof.
  induction lines1 as [|l lines1 IH]; [done|].
  cbn [app line_diagnostics]. by rewrite IH, string_app_assoc.
Qed.

Lemma foldl_insert_course_union m courses :
  foldl insert_course m courses = foldl insert_course ∅ courses ∪ m.
Proof.
  revert m. induction courses as [|c courses IH]; intros m; simpl.
  - by rewrite (left_id_L ∅ (∪)).
  - rewrite IH, (IH (insert_course ∅ c)). unfold insert_course.
    rewrite <- (assoc_L (∪)). f_equal.
    by rewrite <- insert_union_l, (left_id_L ∅ (∪)).
Qed.

(** X9. Loading two files written one after the other, the first ending in
    a line feed, gives the table of the second completed by the table of
    the first: where both have an identifier the second wins. The
    diagnostics are those of the first followed by those of the second. *)
Theorem load_concatenation fs fs1 fs2 filePath filePath1 filePath2 file1 file2 :
  fs1 filePath1 = Some (file1 +:+ endl) →
  fs2 filePath2 = Some file2 →
  fs filePath = Some ((file1 +:+ endl) +:+ file2) →
  (loadCoursesToHashTable fs filePath).1
    = (loadCoursesToHashTable fs2 filePath2).1 ∪ (loadCoursesToHashTable fs1 filePath1).1 ∧
  cerr (loadCoursesToHashTable fs filePath).2
    = cerr (loadCoursesToHashTable fs1 filePath1).2
      +:+ cerr (loadCoursesToHashTable fs2 filePath2).2.
Proof.
  intros Hopen1 Hopen2 Hopen. rewrite !load_spec, Hopen1, Hopen2, Hopen.
  cbn [fst snd cerr]. rewrite file_lines_app. split.
  - rewrite omap_app, foldl_app. apply foldl_insert_course_union.
  - apply line_diagnostics_app.
Qed.

Lemma load_concatenation_witness :
  (loadCoursesToHashTable (fs_single "all.csv" ((file_duplicate +:+ endl) +:+ file_catalog))
     "all.csv").1
    = (loadCoursesToHashTable (fs_single "b.csv" file_catalog) "b.csv").1
      ∪ (loadCoursesToHashTable (fs_single "a.csv" (file_duplicate +:+ endl)) "a.csv").1 ∧
  cerr (loadCoursesToHashTable (fs_single "all.csv" ((file_duplicate +:+ endl) +:+ file_catalog))
     "all.csv").2
    = cerr (loadCoursesToHashTable (fs_single "a.csv" (file_duplicate +:+ endl)) "a.csv").2
      +:+ cerr (loadCoursesToHashTable (fs_single "b.csv" file_catalog) "b.csv").2.
Proof.
  apply (load_concatenation
           (fs_single "all.csv" ((file_duplicate +:+ endl) +:+ file_catalog))
           (fs_single "a.csv" (file_duplicate +:+ endl))
           (fs_single "b.csv" file_catalog)
           "all.csv" "a.csv" "b.csv" file_duplicate file_catalog); reflexivity.
Defined.

Lemma foldl_insert_course_Permutation courses1 courses2 :
  courses1 ≡ₚ courses2 → NoDup (number <$> courses1) →
  ∀ m, foldl insert_course m courses1 = foldl insert_course m courses2.
Proof.
  induction 1 as [|c cs1 cs2 Hperm IH|c1 c2 cs|cs1 cs2 cs3 Hperm12 IH12 Hperm23 IH23];
    intros Hnodup m.
  - done.
  - simpl. apply IH. by inversion Hnodup.
  - simpl. f_equal. unfold insert_course. apply insert_insert_ne.
    rewrite !fmap_cons in Hnodup. inversion_clear Hnodup as [|?? Hnotin _].
    intros Heq. apply Hnotin. rewrite Heq. left.
  - rewrite IH12 by done. apply IH23. by rewrite <- Hperm12.
Qed.

Lemma omap_course_accepted (lines : list string) :
  omap course_of_line lines
  = omap course_of_line (filter (λ lineData, 2 ≤ length (tokenize lineData)) lines).
Proof.
  induction lines as [|l lines IH]; [done|].
  rewrite filter_cons. cbn [omap list_omap].
  destruct (course_of_line l) as [c|] eqn:Hc.
  - apply course_of_line_Some in Hc as Htok.
    rewrite decide_True by (rewrite Htok; simpl; lia).
    cbn [omap list_omap]. by rewrite Hc, IH.
  - apply course_of_line_None in Hc. by rewrite decide_False by lia.
Qed.

(** X10. When no identifier is repeated among the lines that have at least
    two tokens, the table does not depend on the order of the lines, nor
    on the lines with fewer tokens: two files whose accepted lines are the
    same up to order load the same table. *)
Theorem load_order_irrelevant fs1 fs2 filePath1 filePath2 file1 file2 :
  fs1 filePath1 = Some file1 →
  fs2 filePath2 = Some file2 →
  accepted_lines file1 ≡ₚ accepted_lines file2 →
  NoDup (line_identifier <$> accepted_lines file1) →
  (loadCoursesToHashTable fs1 filePath1).1 = (loadCoursesToHashTable fs2 filePath2).1.
Proof.
  intros Hopen1 Hopen2 Hperm Hnodup. rewrite !load_spec, Hopen1, Hopen2. cbn [fst].
  rewrite (omap_course_accepted (file_lines file1)),
          (omap_course_accepted (file_lines file2)).
  apply foldl_insert_course_Permutation.
  - unfold accepted_lines in Hperm. by rewrite Hperm.
  - rewrite <- omap_course_accepted, omap_course_numbers. apply Hnodup.
Qed.

Lemma load_order_irrelevant_witness :
  (loadCoursesToHashTable (fs_single "a.csv" ("A,x" +:+ endl +:+ "oops" +:+ endl +:+ "B,y,A"))
     "a.csv").1
  = (loadCoursesToHashTable (fs_single "b.csv" ("B,y,A" +:+ endl +:+ "A,x")) "b.csv").1.
Proof.
  apply (load_order_irrelevant
           (fs_single "a.csv" ("A,x" +:+ endl +:+ "oops" +:+ endl +:+ "B,y,A"))
           (fs_single "b.csv" ("B,y,A" +:+ endl +:+ "A,x"))
           "a.csv" "b.csv"
           ("A,x" +:+ endl +:+ "oops" +:+ endl +:+ "B,y,A")
           ("B,y,A" +:+ endl +:+ "A,x")).
  - reflexivity.
  - reflexivity.
  - vm_compute. apply perm_swap.
  - apply (bool_decide_unpack _). by vm_compute.
Defined.

Lemma remove_dups_length_le (l : list string) : length (remove_dups l) ≤ length l.
Proof.
  induction l as [|x l IH]; [done|]. simpl.
  destruct (decide_rel elem_of x l); simpl; lia.
Qed.

(** X11. The table never has more records than the file has lines with at
    least two tokens, nor than it has lines. *)
Theorem load_size_bound fs filePath file :
  fs filePath = Some file →
  size (loadCoursesToHashTable fs filePath).1 ≤ length (accepted_lines file) ∧
  length (accepted_lines file) ≤ length (file_lines file).
Proof.
  intros Hopen. rewrite load_spec, Hopen. cbn [fst]. split.
  - rewrite <- size_dom, foldl_insert_course_dom, dom_empty_L, union_empty_l_L.
    rewrite omap_course_numbers, size_list_to_set_remove_dups.
    etrans; [apply remove_dups_length_le|]. by rewrite length_fmap.
  - apply length_filter.
Qed.

Lemma load_size_bound_witness :
  size (loadCoursesToHashTable (fs_single "courses.csv" file_duplicate) "courses.csv").1
    ≤ length (accepted_lines file_duplicate) ∧
  length (accepted_lines file_duplicate) ≤ length (file_lines file_duplicate).
Proof.
  apply (load_size_bound (fs_single "courses.csv" file_duplicate) "courses.csv"
           file_duplicate).
  reflexivity.
Defined.

(** ** More on the validator and the listing *)

Lemma first_missing_None m (entries : list (string * Course)) :
  first_missing m entries = None ↔
  ∀ entry prerequisite,
    entry ∈ entries → prerequisite ∈ prerequisites entry.2 → prerequisite ∈ dom m.
Proof.
  unfold first_missing. rewrite head_None. split.
  - intros Hnil entry p Hentry Hp.
    destruct (decide (p ∈ dom m)) as [|Hout]; [done|].
    assert (p ∈ filter (λ prerequisite, prerequisite ∉ dom m)
                  (entries ≫= λ entry, prerequisites entry.2)) as Hin.
    { apply list_elem_of_filter. split; [done|].
      apply list_elem_of_bind. by exists entry. }
    rewrite Hnil in Hin. by apply elem_of_nil in Hin.
  - intros Hall. destruct (filter _ _) as [|p ps] eqn:Hfilter; [done|].
    assert (p ∈ filter (λ prerequisite, prerequisite ∉ dom m)
                  (entries ≫= λ entry, prerequisites entry.2)) as Hin
      by (rewrite Hfilter; left).
    apply list_elem_of_filter in Hin as [Hout Hin].
    apply list_elem_of_bind in Hin as (entry & Hp & Hentry).
    destruct Hout. by eapply Hall.
Qed.

Lemma first_missing_None_Permutation m (entries1 entries2 : list (string * Course)) :
  entries1 ≡ₚ entries2 →
  first_missing m entries1 = None ↔ first_missing m entries2 = None.
Proof.
  intros Hperm. rewrite !first_missing_None.
  split; intros Hall entry p Hentry; apply Hall.
  - by rewrite Hperm.
  - by rewrite <- Hperm.
Qed.

Lemma err_prerequisite_not_nil prerequisite : err_prerequisite prerequisite ≠ "".
Proof. done. Qed.

(** X12. The verdict of the validator does not depend on the order in which
    the table is visited (only the prerequisite it reports may), and it
    returns false exactly when it writes a diagnostic. *)
Theorem validate_order_irrelevant iterate1 iterate2 m :
  (∀ m, iterate1 m ≡ₚ map_to_list m) →
  (∀ m, iterate2 m ≡ₚ map_to_list m) →
  (validateHashTable iterate1 m).1 = (validateHashTable iterate2 m).1 ∧
  ((validateHashTable iterate1 m).1 = false ↔ cerr (validateHashTable iterate1 m).2 ≠ "").
Proof.
  intros Hperm1 Hperm2.
  rewrite (validateHashTable_first iterate1 Hperm1), (validateHashTable_first iterate2 Hperm2).
  assert (iterate1 m ≡ₚ iterate2 m) as Hperm by by rewrite Hperm1, Hperm2.
  pose proof (first_missing_None_Permutation m _ _ Hperm) as Hnone.
  destruct (first_missing m (iterate1 m)) as [p1|] eqn:H1,
           (first_missing m (iterate2 m)) as [p2|] eqn:H2; simpl.
  - split; [done|]. split; [intros _; apply err_prerequisite_not_nil|done].
  - destruct Hnone as [_ Hnone]. by specialize (Hnone eq_refl).
  - destruct Hnone as [Hnone _]. by specialize (Hnone eq_refl).
  - split; [done|]. split; [done|]. by intros [].
Qed.

Lemma validate_order_irrelevant_witness :
  (validateHashTable map_to_list table_example).1
    = (validateHashTable (λ m, reverse (map_to_list m)) table_example).1 ∧
  ((validateHashTable map_to_list table_example).1 = false ↔
   cerr (validateHashTable map_to_list table_example).2 ≠ "").
Proof.
  apply (validate_order_irrelevant map_to_list (λ m, reverse (map_to_list m)) table_example).
  - intros m. reflexivity.
  - intros m. apply reverse_Permutation.
Defined.

(** X13. The listing does not depend on the order in which the table is
    visited, for any table. *)
Theorem print_all_order_irrelevant iterate1 iterate2 m :
  (∀ m, iterate1 m ≡ₚ map_to_list m) →
  (∀ m, iterate2 m ≡ₚ map_to_list m) →
  PrintAllCourses iterate1 m = PrintAllCourses iterate2 m.
Proof.
  intros Hperm1 Hperm2. unfold PrintAllCourses.
  assert (std_sort (map fst (iterate1 m)) = std_sort (map fst (iterate2 m))) as ->; [|done].
  unfold std_sort. apply (Sorted_unique String.le).
  - apply Sorted_merge_sort, _.
  - apply Sorted_merge_sort, _.
  - rewrite !merge_sort_Permutation. change (map fst ?l) with (l.*1).
    by rewrite Hperm1, Hperm2.
Qed.

Lemma print_all_order_irrelevant_witness :
  PrintAllCourses map_to_list table_example
  = PrintAllCourses (λ m, reverse (map_to_list m)) table_example.
Proof.
  apply (print_all_order_irrelevant map_to_list (λ m, reverse (map_to_list m)) table_example).
  - intros m. reflexivity.
  - intros m. apply reverse_Permutation.
Defined.

(** ** The search on a loaded table *)

Lemma err_not_found_not_nil id : err_not_found id ≠ "".
Proof. done. Qed.

(** X14. On the table loaded from a file, the search finds an identifier
    exactly when some line of the file with at least two tokens begins with
    it; what it then prints begins with that very identifier, and nothing
    goes to the error stream. Otherwise it prints nothing and writes the
    not-found diagnostic. *)
Theorem search_loaded fs filePath file id :
  fs filePath = Some file →
  (cerr (searchCourseInHashTable (loadCoursesToHashTable fs filePath).1 id) = "" ↔
   ∃ lineData courseTitle prereqs,
     lineData ∈ file_lines file ∧ tokenize lineData = id :: courseTitle :: prereqs) ∧
  (cerr (searchCourseInHashTable (loadCoursesToHashTable fs filePath).1 id) = "" →
   ∃ rest, cout (searchCourseInHashTable (loadCoursesToHashTable fs filePath).1 id)
           = "Course Number: " +:+ id +:+ endl +:+ rest) ∧
  (cerr (searchCourseInHashTable (loadCoursesToHashTable fs filePath).1 id) ≠ "" →
   searchCourseInHashTable (loadCoursesToHashTable fs filePath).1 id
   = mkOutput "" (err_not_found id)).
Proof.
  intros Hopen. unfold searchCourseInHashTable.
  destruct ((loadCoursesToHashTable fs filePath).1 !! id) as [course|] eqn:Hc.
  - cbn [cerr cout]. split_and!.
    + split; [intros _|done].
      apply load_lookup_line in Hc as (_ & file' & lineData & Hf & Hin & Htok).
      assert (file' = file) as -> by congruence. eauto.
    + intros _. apply load_lookup_line in Hc as [-> _]. eauto.
    + done.
  - cbn [cerr cout]. split_and!.
    + split; [by intros ?%err_not_found_not_nil|].
      intros (lineData & courseTitle & prereqs & Hin & Htok).
      assert (is_Some ((loadCoursesToHashTable fs filePath).1 !! id)) as [? Hsome].
      { rewrite load_spec, Hopen. cbn [fst]. apply elem_of_dom.
        rewrite foldl_insert_course_dom, dom_empty_L, union_empty_l_L.
        apply elem_of_list_to_set, list_elem_of_fmap.
        exists (mkCourse id courseTitle prereqs). split; [done|].
        apply list_elem_of_omap. exists lineData. split; [done|].
        by apply course_of_line_Some. }
      congruence.
    + by intros ?%err_not_found_not_nil.
    + done.
Qed.

Lemma search_loaded_witness :
  (cerr (searchCourseInHashTable
           (loadCoursesToHashTable (fs_single "courses.csv" file_catalog) "courses.csv").1
           "CS201") = "" ↔
   ∃ lineData courseTitle prereqs,
     lineData ∈ file_lines file_catalog ∧
     tokenize lineData = "CS201" :: courseTitle :: prereqs) ∧
  (cerr (searchCourseInHashTable
           (loadCoursesToHashTable (fs_single "courses.csv" file_catalog) "courses.csv").1
           "CS201") = "" →
   ∃ rest, cout (searchCourseInHashTable
                   (loadCoursesToHashTable (fs_single "courses.csv" file_catalog)
                      "courses.csv").1 "CS201")
           = "Course Number: " +:+ "CS201" +:+ endl +:+ rest) ∧
  (cerr (searchCourseInHashTable
           (loadCoursesToHashTable (fs_single "courses.csv" file_catalog) "courses.csv").1
           "CS201") ≠ "" →
   searchCourseInHashTable
     (loadCoursesToHashTable (fs_single "courses.csv" file_catalog) "courses.csv").1
     "CS201"
   = mkOutput "" (err_not_found "CS201")).
Proof.
  apply (search_loaded (fs_single "courses.csv" file_catalog) "courses.csv"
           file_catalog "CS201").
  reflexivity.
Defined.

(** ** The menu loop *)





(** X16. In the menu a load that cannot open its file empties the catalog:
    the table the session held is gone, the open diagnostic is written, and
    from then on the listing is the header alone and every search reports
    that the course is not found. *)
Theorem failed_load_empties_catalog iterate fs input s :
  (∀ m, iterate m ≡ₚ map_to_list m) →
  fs input = None →
  ∃ s' o,
    main_turn iterate fs 1 input s = (Some s', o) ∧
    coursesHashTable s' = ∅ ∧ filePath s' = input ∧ cerr o = err_open ∧
    PrintAllCourses iterate (coursesHashTable s') = mkOutput print_header "" ∧
    ∀ id, searchCourseInHashTable (coursesHashTable s') id
          = mkOutput "" (err_not_found id).
Proof.
  intros Hperm Hopen. unfold main_turn. rewrite decide_True by done.
  rewrite load_spec, Hopen. eexists _, _. split; [done|]. cbn [coursesHashTable filePath].
  split_and!; [done|done|done| |].
  - unfold PrintAllCourses.
    assert (iterate ∅ = []) as ->; [|done].
    apply Permutation_nil_r. by rewrite Hperm, map_to_list_empty.
  - intros id. unfold searchCourseInHashTable. by rewrite lookup_empty.
Qed.

Lemma failed_load_empties_catalog_witness :
  ∃ s' o,
    main_turn map_to_list (fs_single "courses.csv" file_catalog) 1 "missing.csv"
      (mkSession "courses.csv" "" table_example) = (Some s', o) ∧
    coursesHashTable s' = ∅ ∧ filePath s' = "missing.csv" ∧ cerr o = err_open ∧
    PrintAllCourses map_to_list (coursesHashTable s') = mkOutput print_header "" ∧
    ∀ id, searchCourseInHashTable (coursesHashTable s') id
          = mkOutput "" (err_not_found id).
Proof.
  apply (failed_load_empties_catalog map_to_list (fs_single "courses.csv" file_catalog)
           "missing.csv" (mkSession "courses.csv" "" table_example)).
  - intros m. reflexivity.
  - reflexivity.
Defined.

Lemma main_turn_exit iterate fs userChoice input s :
  (main_turn iterate fs userChoice input s).1 = None ↔ userChoice = 9%Z.
Proof.
  unfold main_turn. repeat case_decide; subst; try done.
  by destruct (loadCoursesToHashTable fs input).
Qed.

(** X17. The menu loop ends exactly when a turn chooses 9: no other choice,
    no failed load and no unknown course makes [main] return. *)
Theorem main_turns_exit_iff iterate fs (turns : list (Z * string)) s :
  (main_turns iterate fs turns s).1 = None ↔ 9%Z ∈ turns.*1.
Proof.
  revert s. induction turns as [|[userChoice input] turns IH]; intros s.
  - simpl. split; [done|]. by intros ?%elem_of_nil.
  - cbn [main_turns]. rewrite fmap_cons, elem_of_cons. cbn [fst].
    pose proof (main_turn_exit iterate fs userChoice input s) as Hexit.
    destruct (main_turn iterate fs userChoice input s) as [[s1|] o1]; cbn [fst] in *.
    + specialize (IH s1).
      destruct (main_turns iterate fs turns s1) as [r o2]. cbn [fst] in *.
      rewrite IH. split; [by right|]. intros [Heq|?]; [|done].
      by destruct Hexit as [_ Hexit]; specialize (Hexit (eq_sym Heq)).
    + split; [|done]. intros _. left. symmetry. by apply Hexit.
Qed.

Lemma main_turn_keeps_catalog iterate fs userChoice input s s' o :
  userChoice ≠ 1%Z →
  main_turn iterate fs userChoice input s = (Some s', o) →
  coursesHashTable s' = coursesHashTable s ∧ filePath s' = filePath s.
Proof.
  unfold main_turn. intros Hne. repeat case_decide; try done; by intros [= <- _].
Qed.

(** X18. Only choice 1 touches the catalog: over any turns none of which
    chooses 1, the session keeps its table and its path (listing a table,
    searching it, or a choice that is not on the menu change nothing). *)
Theorem main_turns_keep_catalog iterate fs (turns : list (Z * string)) s s' o :
  Forall (λ turn, turn.1 ≠ 1%Z) turns →
  main_turns iterate fs turns s = (Some s', o) →
  coursesHashTable s' = coursesHashTable s ∧ filePath s' = filePath s.
Proof.
  revert s o. induction turns as [|[userChoice input] turns IH]; intros s o Hall.
  - by intros [= <- _].
  - inversion_clear Hall as [|?? Hne Hrest]. cbn [main_turns].
    destruct (main_turn iterate fs userChoice input s) as [[s1|] o1] eqn:Hturn; [|done].
    destruct (main_turns iterate fs turns s1) as [r o2] eqn:Hturns.
    intros [= -> _].
    destruct (main_turn_keeps_catalog _ _ _ _ _ _ _ Hne Hturn) as [<- <-].
    by eapply IH.
Qed.

Lemma main_turns_keep_catalog_witness :
  coursesHashTable (mkSession "courses.csv" "CS999" table_example)
    = coursesHashTable (mkSession "courses.csv" "" table_example) ∧
  filePath (mkSession "courses.csv" "CS999" table_example)
    = filePath (mkSession "courses.csv" "" table_example).
Proof.
  eapply (main_turns_keep_catalog map_to_list (fs_single "courses.csv" file_catalog)
            [(2, ""); (3, "CS201"); (0, ""); (3, "CS999")]%Z).
  - repeat constructor; discriminate.
  - vm_compute. reflexivity.
Defined.
